(** * PouncePoint: the prey motion engine and the session state of [App.tsx]

    A shallow embedding of the state held by the [App] component
    ([src/App.tsx], [src/types.ts]) and of the handlers that change it:
    the animation-frame updater [animate], the catch handler
    [handlePreyCatch], and the setters wired to the controls.

    JavaScript numbers are modelled as real numbers ([R]): arithmetic is
    exact, so rounding of IEEE doubles, NaN and signed zeros are outside
    the model.  The score, which only ever starts at [0], is incremented
    by [1] or is reset to [0], is an integer ([Z]).  [Math.random()] is an
    input: each handler takes the draws it consumes as arguments.

    Where rounding decides a property, the arithmetic is embedded a second
    time on IEEE 754 binary64 numbers ([jitter64], [flipped64]). *)

From Stdlib Require Import ZArith QArith Qabs Floats.
From Stdlib Require Import Reals Lra Lia Bool String List.
Import ListNotations.
Open Scope R_scope.

(** * The component *)

(** ** Numbers *)

(** [a < b] as the boolean a JavaScript condition computes. *)
Definition Rltb (a b : R) : bool :=
  if Rlt_dec a b then true else false.

(** [Math.atan2(y, x)] on real numbers: the angle of the point [(x, y)]
    in [(-PI, PI]], and [0] at the origin. *)
Definition atan2 (y x : R) : R :=
  if Rltb 0 x then atan (y / x)
  else if Rltb x 0 then
    if Rltb y 0 then atan (y / x) - PI else atan (y / x) + PI
  else if Rltb 0 y then PI / 2
  else if Rltb y 0 then - PI / 2
  else 0.

(** ** Data model ([src/types.ts]) *)

Inductive PreyType : Set := laser | mouse | bird | bug.

Inductive Theme : Set := garden | night | minimal.

Record GameState : Type := mkGameState {
  score : Z;
  preyType : PreyType;
  speed : R;
  theme : Theme;
  isMuted : bool
}.

Record Prey : Type := mkPrey {
  id : string;
  x : R;
  y : R;
  rotation : R;
  scale : R
}.

(** The object held by [velocityRef]. *)
Record Velocity : Type := mkVelocity {
  dx : R;
  dy : R
}.

(** The object held by the [dimensions] state. *)
Record Dimensions : Type := mkDimensions {
  width : R;
  height : R
}.

(** Everything the component holds: the four [useState] cells that the
    handlers read or write, the settings-panel flag, and the mutable
    [velocityRef].  ([requestRef] only holds the handle of the scheduled
    frame and is left out.) *)
Record App : Type := mkApp {
  gameState : GameState;
  isPlaying : bool;
  dimensions : Dimensions;
  prey : Prey;
  showSettings : bool;
  velocityRef : Velocity
}.

(** The state on first render, in a window [innerWidth] by [innerHeight]. *)
Definition initialApp (innerWidth innerHeight : R) : App :=
  {| gameState := {| score := 0; preyType := laser; speed := 3;
                     theme := minimal; isMuted := false |};
     isPlaying := true;
     dimensions := {| width := innerWidth; height := innerHeight |};
     prey := {| id := "prey-1"; x := innerWidth / 2; y := innerHeight / 2;
                rotation := 0; scale := 1 |};
     showSettings := false;
     velocityRef := {| dx := 2; dy := 2 |} |}.

(** ** Movement logic: [animate] *)

(** [Math.atan2(dy, dx) * (180 / Math.PI)] of a velocity. *)
Definition heading (v : Velocity) : R :=
  atan2 (dy v) (dx v) * (180 / PI).

(** The wall tests of the two [if]s: [c < 50 || c > limit - 50]. *)
Definition crosses (c limit : R) : bool :=
  Rltb c 50 || Rltb (limit - 50) c.

(** First [if]: [velocityRef.current.dx *= -1] and the heading recomputed
    from the reference.  The pair is the local [rotation] and the content
    of [velocityRef.current]. *)
Definition bounceX (dim : Dimensions) (x1 : R) (st : R * Velocity)
  : R * Velocity :=
  let '(rot, vref) := st in
  if crosses x1 (width dim) then
    let vref' := {| dx := dx vref * -1; dy := dy vref |} in
    (heading vref', vref')
  else (rot, vref).

(** Second [if]: the same on the y axis. *)
Definition bounceY (dim : Dimensions) (y1 : R) (st : R * Velocity)
  : R * Velocity :=
  let '(rot, vref) := st in
  if crosses y1 (height dim) then
    let vref' := {| dx := dx vref; dy := dy vref * -1 |} in
    (heading vref', vref')
  else (rot, vref).

(** Third [if]: the random change of direction.  [dx0] and [dy0] are the
    locals [dx] and [dy], destructured from [velocityRef.current] at the
    top of the updater, before the wall tests; [r1] and [r2] are the two
    results of [Math.random()]. *)
Definition jitter (r1 r2 : R) (dx0 dy0 : R) (st : R * Velocity)
  : R * Velocity :=
  let '(rot, vref) := st in
  if Rltb r1 0.02 then
    let angle := (r2 - 0.5) * 0.5 in
    let c := cos angle in
    let s := sin angle in
    let newDx := dx0 * c - dy0 * s in
    let newDy := dx0 * s + dy0 * c in
    let vref' := {| dx := newDx; dy := newDy |} in
    (atan2 newDy newDx * (180 / PI), vref')
  else (rot, vref).

(** The wall tests alone, as the updater runs them: the state of
    [rotation] and [velocityRef.current] when the third [if] is reached. *)
Definition afterBounce (a : App) : R * Velocity :=
  let v := velocityRef a in
  let x1 := x (prey a) + dx v * speed (gameState a) in
  let y1 := y (prey a) + dy v * speed (gameState a) in
  bounceY (dimensions a) y1
    (bounceX (dimensions a) x1 (rotation (prey a), v)).

(** One animation frame.  When paused the callback returns at once;
    otherwise the updater passed to [setPrey] runs. *)
Definition animate (a : App) (r1 r2 : R) : App :=
  if negb (isPlaying a) then a
  else
    let prev := prey a in
    let v := velocityRef a in
    let dx0 := dx v in
    let dy0 := dy v in
    let x1 := x prev + dx0 * speed (gameState a) in
    let y1 := y prev + dy0 * speed (gameState a) in
    let '(rot, vref) :=
      jitter r1 r2 dx0 dy0
        (bounceY (dimensions a) y1
           (bounceX (dimensions a) x1 (rotation prev, v))) in
    {| gameState := gameState a;
       isPlaying := isPlaying a;
       dimensions := dimensions a;
       prey := {| id := id prev; x := x1; y := y1;
                  rotation := rot; scale := scale prev |};
       showSettings := showSettings a;
       velocityRef := vref |}.

(** ** The catch handler and the controls *)

Definition withGameState (a : App) (g : GameState) : App :=
  {| gameState := g; isPlaying := isPlaying a; dimensions := dimensions a;
     prey := prey a; showSettings := showSettings a;
     velocityRef := velocityRef a |}.

Definition withPrey (a : App) (p : Prey) : App :=
  {| gameState := gameState a; isPlaying := isPlaying a;
     dimensions := dimensions a; prey := p;
     showSettings := showSettings a; velocityRef := velocityRef a |}.

(** [handlePreyCatch]: the score updater, then the two [setPrey] updaters
    in the order they are queued (scale [1.5], then the teleport).  [rx]
    and [ry] are the two results of [Math.random()].  The sound has no
    effect on the state. *)
Definition handlePreyCatch (a : App) (rx ry : R) : App :=
  let g := gameState a in
  let g' := {| score := score g + 1; preyType := preyType g;
               speed := speed g; theme := theme g;
               isMuted := isMuted g |} in
  let p := prey a in
  let p1 := {| id := id p; x := x p; y := y p; rotation := rotation p;
               scale := 1.5 |} in
  let p2 := {| id := id p1;
               x := rx * (width (dimensions a) - 100) + 50;
               y := ry * (height (dimensions a) - 100) + 50;
               rotation := rotation p1; scale := scale p1 |} in
  withPrey (withGameState a g') p2.

(** Whether the handler plays the clip: [!gameState.isMuted]. *)
Definition catchPlaysSound (a : App) : bool :=
  negb (isMuted (gameState a)).

(** The callback of [setTimeout(..., 100)]: the scale back to [1]. *)
Definition restoreScale (a : App) : App :=
  let p := prey a in
  withPrey a {| id := id p; x := x p; y := y p; rotation := rotation p;
                scale := 1 |}.

(** The [Reset Score] button. *)
Definition resetScore (a : App) : App :=
  let g := gameState a in
  withGameState a {| score := 0; preyType := preyType g; speed := speed g;
                     theme := theme g; isMuted := isMuted g |}.

(** The [onChange] of the speed slider; [v] is
    [parseFloat(e.target.value)]. *)
Definition setSpeed (a : App) (v : R) : App :=
  let g := gameState a in
  withGameState a {| score := score g; preyType := preyType g; speed := v;
                     theme := theme g; isMuted := isMuted g |}.

Definition setPreyType (a : App) (t : PreyType) : App :=
  let g := gameState a in
  withGameState a {| score := score g; preyType := t; speed := speed g;
                     theme := theme g; isMuted := isMuted g |}.

Definition setTheme (a : App) (t : Theme) : App :=
  let g := gameState a in
  withGameState a {| score := score g; preyType := preyType g;
                     speed := speed g; theme := t; isMuted := isMuted g |}.

Definition toggleMuted (a : App) : App :=
  let g := gameState a in
  withGameState a {| score := score g; preyType := preyType g;
                     speed := speed g; theme := theme g;
                     isMuted := negb (isMuted g) |}.

Definition togglePlaying (a : App) : App :=
  {| gameState := gameState a; isPlaying := negb (isPlaying a);
     dimensions := dimensions a; prey := prey a;
     showSettings := showSettings a; velocityRef := velocityRef a |}.

Definition toggleSettings (a : App) : App :=
  {| gameState := gameState a; isPlaying := isPlaying a;
     dimensions := dimensions a; prey := prey a;
     showSettings := negb (showSettings a); velocityRef := velocityRef a |}.

(** [handleResize]. *)
Definition handleResize (a : App) (innerWidth innerHeight : R) : App :=
  {| gameState := gameState a; isPlaying := isPlaying a;
     dimensions := {| width := innerWidth; height := innerHeight |};
     prey := prey a; showSettings := showSettings a;
     velocityRef := velocityRef a |}.

(** ** Runs of the component *)

(** What can happen to the component, with the inputs each handler reads. *)
Inductive Event : Type :=
| Frame (r1 r2 : R)
| Catch (rx ry : R)
| ScaleTimeout
| ResetScore
| SpeedChange (v : R)
| PreyTypeClick (t : PreyType)
| ThemeClick (t : Theme)
| MuteClick
| PlayPauseClick
| SettingsClick
| Resize (innerWidth innerHeight : R).

Definition step (a : App) (e : Event) : App :=
  match e with
  | Frame r1 r2 => animate a r1 r2
  | Catch rx ry => handlePreyCatch a rx ry
  | ScaleTimeout => restoreScale a
  | ResetScore => resetScore a
  | SpeedChange v => setSpeed a v
  | PreyTypeClick t => setPreyType a t
  | ThemeClick t => setTheme a t
  | MuteClick => toggleMuted a
  | PlayPauseClick => togglePlaying a
  | SettingsClick => toggleSettings a
  | Resize w h => handleResize a w h
  end.

Definition run (a : App) (es : list Event) : App :=
  fold_left step es a.

(** [n] catches in a row, the [k]-th with the draws [draws k]. *)
Fixpoint catches (n : nat) (draws : nat -> R * R) (a : App) : App :=
  match n with
  | O => a
  | S m =>
      let a' := catches m draws a in
      handlePreyCatch a' (fst (draws m)) (snd (draws m))
  end.

(** ** Vocabulary of the properties *)

(** The position lies in the field the specification bounds it to:
    [[50, width - 50] x [50, height - 50]]. *)
Definition inField (dim : Dimensions) (p : Prey) : Prop :=
  50 <= x p <= width dim - 50 /\ 50 <= y p <= height dim - 50.

(** The new coordinates a frame computes: position plus velocity times
    speed. *)
Definition nextX (a : App) : R :=
  x (prey a) + dx (velocityRef a) * speed (gameState a).

Definition nextY (a : App) : R :=
  y (prey a) + dy (velocityRef a) * speed (gameState a).

(** A velocity with [dx] negated when [bx] holds and [dy] negated when
    [byy] holds. *)
Definition flipped (bx byy : bool) (v : Velocity) : Velocity :=
  {| dx := if bx then dx v * -1 else dx v;
     dy := if byy then dy v * -1 else dy v |}.

(** The rotation matrix of angle [t] applied to [v]. *)
Definition rotated (t : R) (v : Velocity) : Velocity :=
  {| dx := dx v * cos t - dy v * sin t;
     dy := dx v * sin t + dy v * cos t |}.

(** The squared Euclidean norm of a velocity. *)
Definition norm2 (v : Velocity) : R := dx v * dx v + dy v * dy v.

(** The number of catches of a run, and whether it is free of resets. *)
Fixpoint countCatches (es : list Event) : nat :=
  match es with
  | [] => O
  | Catch _ _ :: es' => S (countCatches es')
  | _ :: es' => countCatches es'
  end.

Definition isReset (e : Event) : bool :=
  match e with
  | ResetScore => true
  | _ => false
  end.

Definition noReset (es : list Event) : bool :=
  forallb (fun e => negb (isReset e)) es.

(** *** States used as examples *)

(** The first render of an 800 by 600 window with the prey moved six
    pixels inside the right margin ([748 <= 750]); it moves right. *)
Definition nearRightWall : App :=
  withPrey (initialApp 800 600)
    {| id := "prey-1"; x := 748; y := 300; rotation := 0; scale := 1 |}.

(** The same, six pixels inside the right and the bottom margins. *)
Definition nearCorner : App :=
  withPrey (initialApp 800 600)
    {| id := "prey-1"; x := 748; y := 548; rotation := 0; scale := 1 |}.

(** The second scenario of the specification: position [(798, 300)],
    velocity [(2, 2)], speed [3], in a window [800] wide and [h] high. *)
Definition scenario798 (h : R) : App :=
  withPrey (initialApp 800 h)
    {| id := "prey-1"; x := 798; y := 300; rotation := 0; scale := 1 |}.

(** The prey after [k] frames in a straight line from the first render of
    an 800 by 600 window. *)
Definition straight (k : nat) (a : App) : Prop :=
  isPlaying a = true /\
  speed (gameState a) = 3 /\
  dimensions a = {| width := 800; height := 600 |} /\
  velocityRef a = {| dx := 2; dy := 2 |} /\
  x (prey a) = 400 + 6 * IZR (Z.of_nat k) /\
  y (prey a) = 300 + 6 * IZR (Z.of_nat k).

(** The prey beyond the right margin of an 800 wide window, one step out
    and moving out, or two steps out and moving in. *)
Definition strandedRight (a : App) : Prop :=
  isPlaying a = true /\
  speed (gameState a) = 3 /\
  width (dimensions a) = 800 /\
  ((x (prey a) = 754 /\ dx (velocityRef a) = 2) \/
   (x (prey a) = 760 /\ dx (velocityRef a) = -2)).

(** ** The speed slider *)

(** The value a [type="range"] input holds when the user asks for [raw],
    by the rules of the HTML standard for that input: the minimum when
    [raw] is below it, the maximum when [raw] is above it, and otherwise
    the nearest [lo + k * step], the upper one when two are as near. *)
Definition rangeValue (lo hi step raw : R) : R :=
  if Rltb raw lo then lo
  else if Rltb hi raw then hi
  else lo + step * IZR (Zfloor ((raw - lo) / step + 1 / 2)).

(** The speed slider as the user meets it: the input with [min="1"],
    [max="10"] and [step="0.5"], whose [onChange] stores
    [parseFloat(e.target.value)]. *)
Definition speedSlider (a : App) (raw : R) : App :=
  setSpeed a (rangeValue 1 10 0.5 raw).

(** ** The jitter on doubles *)

(** The third [if] of the updater on IEEE 754 binary64 numbers, each
    product, sum and difference rounded as JavaScript rounds it.
    [cos64] and [sin64] stand for [Math.cos] and [Math.sin], whose results
    the language leaves to the implementation; the threshold is the
    double that [0.02] denotes; the pairs are velocities [(dx, dy)]. *)
Definition jitter64 (cos64 sin64 : float -> float) (r1 r2 : float)
  (dx0 dy0 : float) (vref : float * float) : float * float :=
  if (r1 <? 0x1.47ae147ae147bp-6)%float then
    let angle := ((r2 - 0.5) * 0.5)%float in
    let c := cos64 angle in
    let s := sin64 angle in
    let newDx := (dx0 * c - dy0 * s)%float in
    let newDy := (dx0 * s + dy0 * c)%float in
    (newDx, newDy)
  else vref.

(** The two wall tests' writes on doubles: [dx] multiplied by [-1] when
    [bx] holds, [dy] when [byy] holds. *)
Definition flipped64 (bx byy : bool) (v : float * float) : float * float :=
  ((if bx then fst v * -1 else fst v)%float,
   (if byy then snd v * -1 else snd v)%float).

(** The four velocities of doubles [(2, 2)], [(-2, 2)], [(2, -2)] and
    [(-2, -2)]. *)
Definition diagonals64 : list (float * float) :=
  [(2, 2); (-2, 2); (2, -2); (-2, -2)]%float.

Definition isDiagonal64 (v : float * float) : bool :=
  existsb (fun w => (fst w =? fst v)%float && (snd w =? snd v)%float)
          diagonals64.

(** The rational number a finite double is. *)
Definition valueQ (f : float) : option Q :=
  match Prim2SF f with
  | S754_zero _ => Some 0%Q
  | S754_finite sg m e =>
      Some ((if sg then -1 else 1) * inject_Z (Zpos m) * Qpower 2 e)%Q
  | _ => None
  end.

(** The squared Euclidean norm of a velocity of doubles, exactly. *)
Definition norm2Q (v : float * float) : option Q :=
  match valueQ (fst v), valueQ (snd v) with
  | Some p, Some q => Some (p * p + q * q)%Q
  | _, _ => None
  end.

(** The norm is exactly [2 * sqrt 2] (its square is [8]); the square of
    the norm is within [2 ^ -44] of [8]. *)
Definition normIs8 (v : float * float) : bool :=
  match norm2Q v with
  | Some q => Qeq_bool q 8
  | None => false
  end.

Definition normNear8 (v : float * float) : bool :=
  match norm2Q v with
  | Some q => Qle_bool (Qabs (q - 8)) (1 # 2 ^ 44)
  | None => false
  end.

(** The doubles up to [k] units in the last place above and below [f]. *)
Fixpoint above (k : nat) (f : float) : list float :=
  match k with
  | O => []
  | S k' => next_up f :: above k' (next_up f)
  end.

Fixpoint below (k : nat) (f : float) : list float :=
  match k with
  | O => []
  | S k' => next_down f :: below k' (next_down f)
  end.

Definition around (k : nat) (f : float) : list float :=
  f :: above k f ++ below k f.

(** The doubles nearest to the cosine and the sine of [15 / 128]. *)
Definition cos_15_128 : float := 0x1.fc7d078d1bc88p-1%float.

Definition sin_15_128 : float := 0x1.dee6f16c1cce6p-4%float.

(** ** The sound *)

(** The number of times a run plays the clip: once per catch made while
    [gameState.isMuted] is false. *)
Fixpoint soundsPlayed (a : App) (es : list Event) : nat :=
  match es with
  | [] => O
  | e :: es' =>
      ((match e with
        | Catch _ _ => if catchPlaysSound a then 1 else 0
        | _ => 0
        end) + soundsPlayed (step a e) es')%nat
  end.

(** ** The instructions overlay *)

(** The condition under which the render shows the instructions:
    [gameState.score === 0 && !showSettings]. *)
Definition instructionsShown (a : App) : bool :=
  (score (gameState a) =? 0)%Z && negb (showSettings a).

(** ** Vocabulary of the properties of runs *)

(** A run of animation frames, one per pair of draws. *)
Definition frames (rs : list (R * R)) : list Event :=
  map (fun r => Frame (fst r) (snd r)) rs.


(** The heading shown is the heading of the velocity. *)
Definition aligned (a : App) : Prop :=
  rotation (prey a) = heading (velocityRef a).

(** The scalar product of two velocities. *)
Definition dot (v w : Velocity) : R := dx v * dx w + dy v * dy w.

(** The events of a run after its last reset (all of them when it has
    none). *)
Fixpoint afterLastReset (es : list Event) : list Event :=
  match es with
  | [] => []
  | e :: es' =>
      if existsb isReset es' then afterLastReset es'
      else if isReset e then es' else e :: es'
  end.

(** The events whose handlers write the scale of the prey. *)
Definition writesScale (e : Event) : bool :=
  match e with
  | Catch _ _ | ScaleTimeout => true
  | _ => false
  end.

(** The events of the three settings and of the three toggles. *)
Definition isSpeedChange (e : Event) : bool :=
  match e with SpeedChange _ => true | _ => false end.

Definition isPreyTypeClick (e : Event) : bool :=
  match e with PreyTypeClick _ => true | _ => false end.

Definition isThemeClick (e : Event) : bool :=
  match e with ThemeClick _ => true | _ => false end.

Definition isPlayPauseClick (e : Event) : bool :=
  match e with PlayPauseClick => true | _ => false end.

Definition isMuteClick (e : Event) : bool :=
  match e with MuteClick => true | _ => false end.

Definition isSettingsClick (e : Event) : bool :=
  match e with SettingsClick => true | _ => false end.

(** A run has none of the events [p] picks. *)
Definition without (p : Event -> bool) (es : list Event) : bool :=
  forallb (fun e => negb (p e)) es.

(** A run has an odd number of the events [p] picks. *)
Definition oddly (p : Event -> bool) (es : list Event) : bool :=
  Nat.odd (length (filter p es)).




(** * Properties *)

(** ** Tools *)

Lemma Rltb_true (a b : R) : Rltb a b = true <-> a < b.
Proof.
  unfold Rltb. destruct (Rlt_dec a b); split; intros; try easy.
Qed.

Lemma Rltb_false (a b : R) : Rltb a b = false <-> b <= a.
Proof.
  unfold Rltb. destruct (Rlt_dec a b); split; intros; try easy; lra.
Qed.

(** Settles the comparisons of a concrete run. *)
Ltac settle_Rltb :=
  repeat match goal with
  | |- context [Rltb ?a ?b] =>
      first [ rewrite (proj2 (Rltb_true a b)) by lra
            | rewrite (proj2 (Rltb_false a b)) by lra ]
  end.

Lemma crosses_true (c limit : R) :
  crosses c limit = true <-> c < 50 \/ limit - 50 < c.
Proof.
  unfold crosses. rewrite orb_true_iff, !Rltb_true. tauto.
Qed.

Lemma crosses_false (c limit : R) :
  crosses c limit = false <-> 50 <= c <= limit - 50.
Proof.
  unfold crosses. rewrite orb_false_iff, !Rltb_false. tauto.
Qed.

Lemma velocity_eq (v w : Velocity) :
  dx v = dx w -> dy v = dy w -> v = w.
Proof.
  destruct v, w; simpl; intros -> ->; reflexivity.
Qed.

Lemma norm2_flipped (bx byy : bool) (v : Velocity) :
  norm2 (flipped bx byy v) = norm2 v.
Proof.
  unfold norm2, flipped. destruct bx, byy; simpl; ring.
Qed.

Lemma norm2_rotated (t : R) (v : Velocity) :
  norm2 (rotated t v) = norm2 v.
Proof.
  unfold norm2, rotated; simpl.
  pose proof (sin2_cos2 t) as H. unfold Rsqr in H.
  transitivity ((dx v * dx v + dy v * dy v)
                * (sin t * sin t + cos t * cos t)); [ring | rewrite H; ring].
Qed.

Lemma sqrt_8 : sqrt (2 * 2 + 2 * 2) = 2 * sqrt 2.
Proof.
  replace (2 * 2 + 2 * 2) with ((2 * 2) * 2) by ring.
  rewrite sqrt_mult by lra. rewrite sqrt_square by lra. reflexivity.
Qed.

Lemma atan2_2_m2 : atan2 2 (-2) * (180 / PI) = 135.
Proof.
  unfold atan2. settle_Rltb.
  replace (2 / -2) with (Ropp 1) by lra.
  rewrite atan_opp, atan_1.
  pose proof PI_RGT_0 as Hpi. field. lra.
Qed.

Lemma run_snoc (a : App) (es : list Event) (e : Event) :
  run a (es ++ [e]) = step (run a es) e.
Proof.
  unfold run. rewrite fold_left_app. reflexivity.
Qed.

(** ** The three steps of a frame *)

Lemma afterBounce_velocity (a : App) :
  snd (afterBounce a) =
    flipped (crosses (nextX a) (width (dimensions a)))
            (crosses (nextY a) (height (dimensions a))) (velocityRef a).
Proof.
  unfold afterBounce, bounceX, bounceY, flipped. fold (nextX a) (nextY a).
  destruct (crosses (nextX a) _), (crosses (nextY a) _); simpl;
    destruct (velocityRef a); reflexivity.
Qed.

Lemma afterBounce_rotation (a : App) :
  crosses (nextX a) (width (dimensions a)) = true \/
  crosses (nextY a) (height (dimensions a)) = true ->
  fst (afterBounce a) = heading (snd (afterBounce a)).
Proof.
  unfold afterBounce, bounceX, bounceY. fold (nextX a) (nextY a).
  destruct (crosses (nextX a) _), (crosses (nextY a) _); simpl;
    intros [H | H]; try discriminate; reflexivity.
Qed.

Lemma jitter_off (r1 r2 dx0 dy0 : R) (st : R * Velocity) :
  0.02 <= r1 -> jitter r1 r2 dx0 dy0 st = st.
Proof.
  intros H. unfold jitter. destruct st as [rot vref].
  rewrite (proj2 (Rltb_false r1 0.02)) by exact H. reflexivity.
Qed.

Lemma jitter_on (r1 r2 dx0 dy0 : R) (st : R * Velocity) :
  r1 < 0.02 ->
  let v' := rotated ((r2 - 0.5) * 0.5) {| dx := dx0; dy := dy0 |} in
  jitter r1 r2 dx0 dy0 st = (heading v', v').
Proof.
  intros H. unfold jitter. destruct st as [rot vref].
  rewrite (proj2 (Rltb_true r1 0.02)) by exact H. reflexivity.
Qed.

(** A frame never writes the session state, the flags or the viewport. *)
Lemma animate_session (a : App) (r1 r2 : R) :
  gameState (animate a r1 r2) = gameState a /\
  isPlaying (animate a r1 r2) = isPlaying a /\
  dimensions (animate a r1 r2) = dimensions a /\
  showSettings (animate a r1 r2) = showSettings a.
Proof.
  unfold animate. destruct (isPlaying a) eqn:Hp; simpl.
  - destruct (jitter _ _ _ _ _) as [rot vref]. simpl. repeat split.
  - repeat split. exact Hp.
Qed.

Section Playing.

Variable a : App.
Variables r1 r2 : R.
Hypothesis playing : isPlaying a = true.

Lemma animate_playing :
  animate a r1 r2 =
    let '(rot, vref) :=
      jitter r1 r2 (dx (velocityRef a)) (dy (velocityRef a))
             (afterBounce a) in
    {| gameState := gameState a; isPlaying := isPlaying a;
       dimensions := dimensions a;
       prey := {| id := id (prey a); x := nextX a; y := nextY a;
                  rotation := rot; scale := scale (prey a) |};
       showSettings := showSettings a; velocityRef := vref |}.
Proof.
  unfold animate, afterBounce, nextX, nextY. rewrite playing.
  reflexivity.
Qed.

Lemma animate_position :
  x (prey (animate a r1 r2)) = nextX a /\
  y (prey (animate a r1 r2)) = nextY a.
Proof.
  rewrite animate_playing.
  destruct (jitter r1 r2 _ _ _) as [rot vref]. simpl. split; reflexivity.
Qed.

Lemma animate_no_jitter :
  0.02 <= r1 ->
  velocityRef (animate a r1 r2) = snd (afterBounce a) /\
  rotation (prey (animate a r1 r2)) = fst (afterBounce a).
Proof.
  intros Hr. rewrite animate_playing, jitter_off by exact Hr.
  destruct (afterBounce a) as [rot vref]. simpl. split; reflexivity.
Qed.

Lemma animate_jitter :
  r1 < 0.02 ->
  velocityRef (animate a r1 r2)
  = rotated ((r2 - 0.5) * 0.5) (velocityRef a) /\
  rotation (prey (animate a r1 r2))
  = heading (velocityRef (animate a r1 r2)).
Proof.
  intros Hr. rewrite animate_playing, jitter_on by exact Hr. simpl.
  destruct (velocityRef a); split; reflexivity.
Qed.

End Playing.

(** The first scenario of the specification: 800 by 600, position
    [(400, 300)], velocity [(2, 2)], speed [3], no jitter. *)
Example first_frame :
  x (prey (animate (initialApp 800 600) 0.5 0.5)) = 406 /\
  y (prey (animate (initialApp 800 600) 0.5 0.5)) = 306 /\
  velocityRef (animate (initialApp 800 600) 0.5 0.5) = {| dx := 2; dy := 2 |} /\
  rotation (prey (animate (initialApp 800 600) 0.5 0.5)) = 0.
Proof.
  assert (Hp : isPlaying (initialApp 800 600) = true) by reflexivity.
  assert (Hr : 0.02 <= 0.5) by lra.
  destruct (animate_position _ 0.5 0.5 Hp) as [-> ->].
  destruct (animate_no_jitter _ 0.5 0.5 Hp Hr) as [-> ->].
  unfold nextX, nextY, afterBounce, bounceX, bounceY, crosses.
  cbn -[Rltb]. settle_Rltb. cbn. repeat split; lra.
Qed.

(** ** Pause *)

(** C4: a frame that arrives while the component is paused changes
    nothing: the position and the heading of the prey, the velocity and
    the whole state are the ones before the frame. *)
Theorem animate_paused_noop (a : App) (r1 r2 : R) :
  isPlaying a = false ->
  x (prey (animate a r1 r2)) = x (prey a) /\
  y (prey (animate a r1 r2)) = y (prey a) /\
  rotation (prey (animate a r1 r2)) = rotation (prey a) /\
  velocityRef (animate a r1 r2) = velocityRef a /\
  animate a r1 r2 = a.
Proof.
  intros Hp. unfold animate. rewrite Hp. simpl. repeat split.
Qed.

Lemma animate_paused_noop_witness :
  isPlaying (togglePlaying (initialApp 800 600)) = false /\
  animate (togglePlaying (initialApp 800 600)) 0.01 0.9
  = togglePlaying (initialApp 800 600).
Proof.
  split; [reflexivity |].
  apply (animate_paused_noop (togglePlaying (initialApp 800 600)) 0.01 0.9).
  reflexivity.
Defined.

(** ** Score *)

Lemma handlePreyCatch_score (a : App) (rx ry : R) :
  score (gameState (handlePreyCatch a rx ry)) = (score (gameState a) + 1)%Z.
Proof. reflexivity. Qed.

Lemma step_score (a : App) (e : Event) :
  isReset e = false ->
  score (gameState (step a e))
  = (score (gameState a) + Z.of_nat (countCatches [e]))%Z.
Proof.
  destruct e; simpl; intros He; try discriminate; try lia.
  destruct (animate_session a r1 r2) as [-> _]. lia.
Qed.

Lemma run_score (es : list Event) (a : App) :
  noReset es = true ->
  score (gameState (run a es))
  = (score (gameState a) + Z.of_nat (countCatches es))%Z.
Proof.
  revert a. induction es as [| e es IH]; intros a Hn.
  - simpl. lia.
  - unfold noReset in Hn. simpl in Hn.
    apply andb_true_iff in Hn. destruct Hn as [He Hes].
    apply negb_true_iff in He.
    change (run a (e :: es)) with (run (step a e) es).
    rewrite (IH _ Hes), (step_score a e He).
    destruct e; simpl; lia.
Qed.

(** C7: one catch adds exactly [1] to the score, whatever the draws;
    after [n] catches the score is the initial score plus [n]; and the
    same holds when frames, settings and the other events come between the
    catches, as long as the score is not reset. *)
Theorem catches_score :
  (forall (a : App) (rx ry : R),
      score (gameState (handlePreyCatch a rx ry))
      = (score (gameState a) + 1)%Z) /\
  (forall (n : nat) (draws : nat -> R * R) (a : App),
      score (gameState (catches n draws a))
      = (score (gameState a) + Z.of_nat n)%Z) /\
  (forall (es : list Event) (a : App),
      noReset es = true ->
      score (gameState (run a es))
      = (score (gameState a) + Z.of_nat (countCatches es))%Z).
Proof.
  split; [intros; apply handlePreyCatch_score |].
  split; [| intros es a; apply run_score].
  induction n as [| n IH]; intros draws a.
  - simpl. lia.
  - cbn [catches]. rewrite handlePreyCatch_score, IH. lia.
Qed.

Lemma catches_score_witness :
  noReset [Frame 0.5 0.5; Catch 0.25 0.75; SpeedChange 5; Catch 0.1 0.2]
  = true /\
  score (gameState (run (initialApp 800 600)
           [Frame 0.5 0.5; Catch 0.25 0.75; SpeedChange 5; Catch 0.1 0.2]))
  = 2%Z.
Proof.
  split; [reflexivity |].
  apply (proj2 (proj2 catches_score)
           [Frame 0.5 0.5; Catch 0.25 0.75; SpeedChange 5; Catch 0.1 0.2]
           (initialApp 800 600)).
  reflexivity.
Defined.

(** C9: the reset sets the score to [0] and leaves the prey type, the
    speed, the theme, the mute flag and the play/pause flag (and the rest
    of the state) as they were. *)
Theorem resetScore_frame (a : App) :
  score (gameState (resetScore a)) = 0%Z /\
  preyType (gameState (resetScore a)) = preyType (gameState a) /\
  speed (gameState (resetScore a)) = speed (gameState a) /\
  theme (gameState (resetScore a)) = theme (gameState a) /\
  isMuted (gameState (resetScore a)) = isMuted (gameState a) /\
  isPlaying (resetScore a) = isPlaying a /\
  prey (resetScore a) = prey a /\
  dimensions (resetScore a) = dimensions a /\
  showSettings (resetScore a) = showSettings a /\
  velocityRef (resetScore a) = velocityRef a.
Proof.
  repeat split.
Qed.

(** ** Speed *)

(** The handler stores the value it is delivered as it is, and changes
    nothing else. *)
Lemma setSpeed_stores (a : App) (v : R) :
  speed (gameState (setSpeed a v)) = v /\
  score (gameState (setSpeed a v)) = score (gameState a) /\
  preyType (gameState (setSpeed a v)) = preyType (gameState a) /\
  theme (gameState (setSpeed a v)) = theme (gameState a) /\
  isMuted (gameState (setSpeed a v)) = isMuted (gameState a) /\
  isPlaying (setSpeed a v) = isPlaying a /\
  prey (setSpeed a v) = prey a /\
  velocityRef (setSpeed a v) = velocityRef a.
Proof.
  repeat split.
Qed.

(** The value of a range input from [1] to [10] in steps of [0.5]. *)
Lemma rangeValue_speed (raw : R) :
  (raw < 1 -> rangeValue 1 10 0.5 raw = 1) /\
  (10 < raw -> rangeValue 1 10 0.5 raw = 10) /\
  (exists k : Z, (0 <= k <= 18)%Z /\
                 rangeValue 1 10 0.5 raw = 1 + 0.5 * IZR k) /\
  (forall k : Z, (0 <= k <= 18)%Z -> raw = 1 + 0.5 * IZR k ->
                 rangeValue 1 10 0.5 raw = raw).
Proof.
  unfold rangeValue. split; [| split; [| split]].
  - intros H. rewrite (proj2 (Rltb_true raw 1) H). reflexivity.
  - intros H. rewrite (proj2 (Rltb_false raw 1)) by lra.
    rewrite (proj2 (Rltb_true 10 raw) H). reflexivity.
  - destruct (Rltb raw 1) eqn:H1.
    { exists 0%Z. split; [lia | lra]. }
    destruct (Rltb 10 raw) eqn:H2.
    { exists 18%Z. split; [lia | lra]. }
    apply Rltb_false in H1, H2.
    set (t := (raw - 1) / 0.5 + 1 / 2).
    assert (Ht : 1 / 2 <= t <= 18 + 1 / 2) by (unfold t; lra).
    destruct (Zfloor_bound t) as [Hl Hu].
    exists (Zfloor t). split; [| reflexivity]. split.
    + apply Zfloor_lub. simpl. lra.
    + assert (Hk : (Zfloor t < 19)%Z) by (apply lt_IZR; lra). lia.
  - intros k Hk Hraw.
    assert (H0 : 0 <= IZR k <= 18).
    { split; [apply (IZR_le 0) | apply (IZR_le k 18)]; lia. }
    rewrite (proj2 (Rltb_false raw 1)), (proj2 (Rltb_false 10 raw)) by lra.
    rewrite (Zfloor_eq k); [lra |]. rewrite Hraw. lra.
Qed.

(** C2: whatever value the user asks of the speed slider, the speed that
    is stored is in [[1, 10]] and on the grid of steps of [0.5]: a value
    below [1] is stored as [1], a value above [10] as [10]; a value of
    [[1, 10]] on the grid is stored exactly; and nothing else changes.
    The bounds are the input's [min], [max] and [step]; the handler
    stores what the input delivers. *)
Theorem speedSlider_guards (a : App) (raw : R) :
  1 <= speed (gameState (speedSlider a raw)) <= 10 /\
  (exists k : Z, (0 <= k <= 18)%Z /\
     speed (gameState (speedSlider a raw)) = 1 + 0.5 * IZR k) /\
  (raw < 1 -> speed (gameState (speedSlider a raw)) = 1) /\
  (10 < raw -> speed (gameState (speedSlider a raw)) = 10) /\
  (forall k : Z, (0 <= k <= 18)%Z -> raw = 1 + 0.5 * IZR k ->
     speed (gameState (speedSlider a raw)) = raw) /\
  score (gameState (speedSlider a raw)) = score (gameState a) /\
  preyType (gameState (speedSlider a raw)) = preyType (gameState a) /\
  theme (gameState (speedSlider a raw)) = theme (gameState a) /\
  isMuted (gameState (speedSlider a raw)) = isMuted (gameState a) /\
  isPlaying (speedSlider a raw) = isPlaying a /\
  prey (speedSlider a raw) = prey a /\
  velocityRef (speedSlider a raw) = velocityRef a.
Proof.
  destruct (rangeValue_speed raw) as (Hlo & Hhi & (k & Hk & Hv) & Hin).
  unfold speedSlider.
  destruct (setSpeed_stores a (rangeValue 1 10 0.5 raw))
    as (-> & Hsc & Hpt & Hth & Hmu & Hpl & Hpr & Hve).
  split.
  { rewrite Hv.
    assert (H0 : 0 <= IZR k <= 18).
    { split; [apply (IZR_le 0) | apply (IZR_le k 18)]; lia. }
    lra. }
  split; [exists k; split; assumption |].
  repeat split; assumption.
Qed.

(** ** Teleport *)

(** C8: in a viewport of at least [100] by [100] (the range is then not
    empty), for all draws of [Math.random()] (in [[0, 1)]), the catch puts
    the prey in [[50, width - 50] x [50, height - 50]] and keeps the
    velocity and the heading. *)
Theorem handlePreyCatch_teleport (a : App) (rx ry : R) :
  100 <= width (dimensions a) ->
  100 <= height (dimensions a) ->
  0 <= rx < 1 ->
  0 <= ry < 1 ->
  inField (dimensions (handlePreyCatch a rx ry))
          (prey (handlePreyCatch a rx ry)) /\
  velocityRef (handlePreyCatch a rx ry) = velocityRef a /\
  rotation (prey (handlePreyCatch a rx ry)) = rotation (prey a).
Proof.
  intros Hw Hh Hx Hy. unfold inField. simpl.
  repeat split; try nra.
Qed.

Lemma handlePreyCatch_teleport_witness :
  (100 <= width (dimensions (initialApp 800 600)) /\
   100 <= height (dimensions (initialApp 800 600)) /\
   0 <= 0.25 < 1 /\ 0 <= 0.75 < 1) /\
  inField (dimensions (handlePreyCatch (initialApp 800 600) 0.25 0.75))
          (prey (handlePreyCatch (initialApp 800 600) 0.25 0.75)) /\
  velocityRef (handlePreyCatch (initialApp 800 600) 0.25 0.75)
  = velocityRef (initialApp 800 600) /\
  rotation (prey (handlePreyCatch (initialApp 800 600) 0.25 0.75))
  = rotation (prey (initialApp 800 600)).
Proof.
  split; [simpl; lra |].
  apply (handlePreyCatch_teleport (initialApp 800 600) 0.25 0.75);
    simpl; lra.
Defined.

(** In a viewport narrower than [100] there is no such range: the
    teleport lands in [(width - 50, 50]]. *)
Lemma handlePreyCatch_narrow (a : App) (rx ry : R) :
  width (dimensions a) < 100 ->
  0 <= rx < 1 ->
  width (dimensions a) - 50 < x (prey (handlePreyCatch a rx ry)) <= 50.
Proof.
  intros Hw Hx. simpl. split; nra.
Qed.

(** ** Position *)

(** C1, as stated, fails: from a position inside the field, one frame
    with velocity [(2, 2)] and speed [3] ends at [x = 754 > 750]. *)
Lemma animate_leaves_field :
  isPlaying nearRightWall = true /\
  inField (dimensions nearRightWall) (prey nearRightWall) /\
  x (prey (animate nearRightWall 0.5 0.5)) = 754 /\
  ~ inField (dimensions (animate nearRightWall 0.5 0.5))
            (prey (animate nearRightWall 0.5 0.5)).
Proof.
  assert (Hp : isPlaying nearRightWall = true) by reflexivity.
  destruct (animate_position nearRightWall 0.5 0.5 Hp) as (Hx & Hy).
  destruct (animate_session nearRightWall 0.5 0.5) as (_ & _ & Hd & _).
  split; [exact Hp |]. split; [unfold inField; simpl; lra |].
  unfold inField. rewrite Hx, Hy, Hd. unfold nextX, nextY. simpl.
  split; [lra | intros [[_ H] _]; lra].
Qed.

(** C1, amended: a frame while playing puts the prey at the old position
    plus velocity times speed, with no clamping.  That position is in the
    field exactly when neither wall test fires in the frame; from a
    position in the field and with a speed that is not negative it is at
    most one step ([|dx| * speed], [|dy| * speed]) beyond the margins. *)
Theorem animate_position_unclamped (a : App) (r1 r2 : R) :
  isPlaying a = true ->
  let a' := animate a r1 r2 in
  x (prey a') = x (prey a) + dx (velocityRef a) * speed (gameState a) /\
  y (prey a') = y (prey a) + dy (velocityRef a) * speed (gameState a) /\
  (inField (dimensions a') (prey a') <->
     crosses (nextX a) (width (dimensions a)) = false /\
     crosses (nextY a) (height (dimensions a)) = false) /\
  (inField (dimensions a) (prey a) -> 0 <= speed (gameState a) ->
     50 - Rabs (dx (velocityRef a)) * speed (gameState a) <= x (prey a')
       <= width (dimensions a) - 50
          + Rabs (dx (velocityRef a)) * speed (gameState a) /\
     50 - Rabs (dy (velocityRef a)) * speed (gameState a) <= y (prey a')
       <= height (dimensions a) - 50
          + Rabs (dy (velocityRef a)) * speed (gameState a)).
Proof.
  intros Hp a'. subst a'.
  destruct (animate_position a r1 r2 Hp) as (Hx & Hy).
  destruct (animate_session a r1 r2) as (_ & _ & Hd & _).
  rewrite Hx, Hy, Hd. unfold inField. rewrite Hx, Hy, !crosses_false.
  split; [reflexivity |]. split; [reflexivity |]. split; [tauto |].
  intros [[Hx1 Hx2] [Hy1 Hy2]] Hs. unfold nextX, nextY.
  pose proof (Rle_abs (dx (velocityRef a))) as Hax.
  pose proof (Rle_abs (- dx (velocityRef a))) as Hax'.
  pose proof (Rle_abs (dy (velocityRef a))) as Hay.
  pose proof (Rle_abs (- dy (velocityRef a))) as Hay'.
  rewrite Rabs_Ropp in Hax', Hay'.
  repeat split; nra.
Qed.

Lemma animate_position_unclamped_witness :
  (isPlaying nearRightWall = true /\
   inField (dimensions nearRightWall) (prey nearRightWall) /\
   0 <= speed (gameState nearRightWall)) /\
  50 - Rabs (dx (velocityRef nearRightWall)) * speed (gameState nearRightWall)
  <= x (prey (animate nearRightWall 0.5 0.5))
  <= width (dimensions nearRightWall) - 50
     + Rabs (dx (velocityRef nearRightWall))
       * speed (gameState nearRightWall).
Proof.
  assert (Hf : inField (dimensions nearRightWall) (prey nearRightWall)).
  { unfold inField. simpl. lra. }
  assert (Hs : 0 <= speed (gameState nearRightWall)) by (simpl; lra).
  split; [repeat split; try apply Hf; exact Hs |].
  apply (animate_position_unclamped nearRightWall 0.5 0.5 eq_refl); assumption.
Defined.

(** Nothing has to place the prey near a wall for it to leave the field:
    from the first render of an 800 by 600 window, 42 frames without
    jitter put it under the bottom margin ([y = 552 > 550]). *)
Lemma straight_frame (k : nat) (a : App) :
  (k < 41)%nat -> straight k a -> straight (S k) (animate a 0.5 0.5).
Proof.
  intros Hk (Hp & Hs & Hd & Hv & Hx & Hy).
  assert (Hr : 0.02 <= 0.5) by lra.
  assert (Hk' : 0 <= IZR (Z.of_nat k) <= 40).
  { split; [apply IZR_le; lia | apply IZR_le; lia]. }
  destruct (animate_position a 0.5 0.5 Hp) as (Hx' & Hy').
  destruct (animate_session a 0.5 0.5) as (Hg' & Hp' & Hd' & _).
  destruct (animate_no_jitter a 0.5 0.5 Hp Hr) as (Hv' & _).
  assert (HnX : nextX a = 400 + 6 * IZR (Z.of_nat (S k))).
  { unfold nextX. rewrite Hx, Hv, Hs, Nat2Z.inj_succ, succ_IZR. simpl. lra. }
  assert (HnY : nextY a = 300 + 6 * IZR (Z.of_nat (S k))).
  { unfold nextY. rewrite Hy, Hv, Hs, Nat2Z.inj_succ, succ_IZR. simpl. lra. }
  assert (Hk1 : IZR (Z.of_nat (S k)) = IZR (Z.of_nat k) + 1).
  { rewrite Nat2Z.inj_succ, succ_IZR. reflexivity. }
  unfold straight. rewrite Hp', Hg', Hd', Hx', Hy', Hv', HnX, HnY.
  repeat split; try assumption.
  rewrite afterBounce_velocity, HnX, HnY, Hd, Hv. cbn [width height].
  rewrite (proj2 (crosses_false _ 800)) by lra.
  rewrite (proj2 (crosses_false _ 600)) by lra.
  reflexivity.
Qed.

Lemma straight_frames (k : nat) :
  (k <= 41)%nat ->
  straight k (run (initialApp 800 600) (repeat (Frame 0.5 0.5) k)).
Proof.
  induction k as [| k IH]; intros Hk.
  - unfold straight. simpl. repeat split; lra.
  - cbn [repeat]. rewrite repeat_cons, run_snoc. cbn [step].
    apply straight_frame; [lia | apply IH; lia].
Qed.

Lemma leaves_field_in_42_frames :
  ~ inField
      (dimensions (run (initialApp 800 600) (repeat (Frame 0.5 0.5) 42)))
      (prey (run (initialApp 800 600) (repeat (Frame 0.5 0.5) 42))).
Proof.
  change (repeat (Frame 0.5 0.5) 42)
    with (Frame 0.5 0.5 :: repeat (Frame 0.5 0.5) 41).
  rewrite repeat_cons, run_snoc.
  destruct (straight_frames 41 (Nat.le_refl 41))
    as (Hp & Hs & Hd & Hv & Hx & Hy).
  set (a := run (initialApp 800 600) (repeat (Frame 0.5 0.5) 41)) in *.
  cbn [step].
  destruct (animate_position a 0.5 0.5 Hp) as (Hx' & Hy').
  destruct (animate_session a 0.5 0.5) as (_ & _ & Hd' & _).
  unfold inField. rewrite Hx', Hy', Hd', Hd. unfold nextX, nextY.
  rewrite Hx, Hy, Hv, Hs. simpl. intros [_ [_ H]]. lra.
Qed.

(** ** Bounces *)

(** C5: in a frame where a wall test fires, the heading the prey ends
    with is [atan2 (dy, dx)], in degrees, of the velocity the frame leaves
    in [velocityRef]; without jitter that velocity is the old one with
    the crossing components negated.  In the scenario (position
    [(798, 300)], velocity [(2, 2)], speed [3], width [800], a height that
    keeps [y = 306] inside, no jitter) the velocity becomes [(-2, 2)] and
    the heading [atan2 (2, -2) = 135] degrees. *)
Theorem bounce_heading :
  (forall (a : App) (r1 r2 : R),
      isPlaying a = true ->
      crosses (nextX a) (width (dimensions a)) = true \/
      crosses (nextY a) (height (dimensions a)) = true ->
      rotation (prey (animate a r1 r2))
      = atan2 (dy (velocityRef (animate a r1 r2)))
              (dx (velocityRef (animate a r1 r2))) * (180 / PI)) /\
  (forall (a : App) (r1 r2 : R),
      isPlaying a = true -> 0.02 <= r1 ->
      velocityRef (animate a r1 r2)
      = flipped (crosses (nextX a) (width (dimensions a)))
                (crosses (nextY a) (height (dimensions a)))
                (velocityRef a)) /\
  (forall (h r1 r2 : R),
      356 <= h -> 0.02 <= r1 ->
      dx (velocityRef (animate (scenario798 h) r1 r2)) = -2 /\
      dy (velocityRef (animate (scenario798 h) r1 r2)) = 2 /\
      rotation (prey (animate (scenario798 h) r1 r2)) = 135 /\
      atan2 2 (-2) * (180 / PI) = 135).
Proof.
  split; [| split].
  - intros a r1 r2 Hp Hc. fold (heading (velocityRef (animate a r1 r2))).
    destruct (Rlt_dec r1 0.02) as [Hr | Hr].
    + apply (animate_jitter a r1 r2 Hp Hr).
    + assert (Hr' : 0.02 <= r1) by lra.
      destruct (animate_no_jitter a r1 r2 Hp Hr') as [-> ->].
      apply afterBounce_rotation, Hc.
  - intros a r1 r2 Hp Hr.
    destruct (animate_no_jitter a r1 r2 Hp Hr) as [-> _].
    apply afterBounce_velocity.
  - intros h r1 r2 Hh Hr.
    assert (Hp : isPlaying (scenario798 h) = true) by reflexivity.
    destruct (animate_no_jitter (scenario798 h) r1 r2 Hp Hr) as [-> ->].
    unfold afterBounce, bounceX, bounceY, crosses. cbn -[Rltb atan2].
    settle_Rltb. cbn -[Rltb atan2].
    replace (2 * -1) with (-2) by lra.
    repeat split; try lra; apply atan2_2_m2.
Qed.

Lemma bounce_heading_witness :
  (isPlaying (scenario798 600) = true /\ 356 <= 600 /\ 0.02 <= 0.5 /\
   crosses (nextX (scenario798 600)) (width (dimensions (scenario798 600)))
   = true) /\
  rotation (prey (animate (scenario798 600) 0.5 0.5)) = 135 /\
  rotation (prey (animate (scenario798 600) 0.5 0.5))
  = atan2 (dy (velocityRef (animate (scenario798 600) 0.5 0.5)))
          (dx (velocityRef (animate (scenario798 600) 0.5 0.5)))
    * (180 / PI).
Proof.
  assert (Hc : crosses (nextX (scenario798 600))
                       (width (dimensions (scenario798 600))) = true).
  { unfold crosses, nextX. simpl. settle_Rltb. reflexivity. }
  split; [repeat split; [lra | lra | exact Hc] |].
  split.
  - apply (proj2 (proj2 bounce_heading) 600 0.5 0.5); lra.
  - apply (proj1 bounce_heading (scenario798 600) 0.5 0.5);
      [reflexivity | left; exact Hc].
Defined.

(** C6: the two wall tests are independent.  When the third [if] is
    reached, [velocityRef] holds the old velocity with [dx] negated
    exactly when the new [x] is out of [[50, width - 50]] and [dy] negated
    exactly when the new [y] is out of [[50, height - 50]]; when both are
    out, both components are negated.  A frame without jitter ends with
    that velocity. *)
Theorem corner_bounce (a : App) :
  isPlaying a = true ->
  let bx := crosses (nextX a) (width (dimensions a)) in
  let byy := crosses (nextY a) (height (dimensions a)) in
  dx (snd (afterBounce a))
  = (if bx then - dx (velocityRef a) else dx (velocityRef a)) /\
  dy (snd (afterBounce a))
  = (if byy then - dy (velocityRef a) else dy (velocityRef a)) /\
  (bx = true -> byy = true ->
   snd (afterBounce a)
   = {| dx := - dx (velocityRef a); dy := - dy (velocityRef a) |}) /\
  (forall r1 r2 : R, 0.02 <= r1 ->
     velocityRef (animate a r1 r2) = snd (afterBounce a)).
Proof.
  intros Hp bx byy. rewrite afterBounce_velocity. fold bx byy.
  split; [| split; [| split]].
  - unfold flipped. destruct bx; simpl; ring.
  - unfold flipped. destruct byy; simpl; ring.
  - intros -> ->. apply velocity_eq; simpl; ring.
  - intros r1 r2 Hr. subst bx byy. rewrite <- afterBounce_velocity.
    apply (animate_no_jitter a r1 r2 Hp Hr).
Qed.

Lemma corner_bounce_witness :
  isPlaying nearCorner = true /\
  crosses (nextX nearCorner) (width (dimensions nearCorner)) = true /\
  crosses (nextY nearCorner) (height (dimensions nearCorner)) = true /\
  0.02 <= 0.5 /\
  velocityRef (animate nearCorner 0.5 0.5) = {| dx := - 2; dy := - 2 |}.
Proof.
  assert (Hx : crosses (nextX nearCorner) (width (dimensions nearCorner))
               = true).
  { unfold crosses, nextX. simpl. settle_Rltb. reflexivity. }
  assert (Hy : crosses (nextY nearCorner) (height (dimensions nearCorner))
               = true).
  { unfold crosses, nextY. simpl. settle_Rltb. reflexivity. }
  assert (H01 : 0.02 <= 0.5) by lra.
  repeat split; try assumption.
  destruct (corner_bounce nearCorner eq_refl) as (_ & _ & Hxy & Hfr).
  rewrite (Hfr 0.5 0.5 H01), (Hxy Hx Hy).
  apply velocity_eq; simpl; lra.
Defined.

(** ** Jitter *)

Lemma nearRightWall_jitter :
  velocityRef (animate nearRightWall 0.01 0.5) = {| dx := 2; dy := 2 |}.
Proof.
  assert (Hp : isPlaying nearRightWall = true) by reflexivity.
  assert (Hr : 0.01 < 0.02) by lra.
  assert (H0 : (0.5 - 0.5) * 0.5 = 0) by lra.
  destruct (animate_jitter nearRightWall 0.01 0.5 Hp Hr) as [-> _].
  rewrite H0. unfold rotated. simpl. rewrite cos_0, sin_0.
  apply velocity_eq; simpl; lra.
Qed.

(** C3 at a frame where the right wall test and the jitter both fire
    (first draw [0.01 < 0.02]; second draw [0.5], so the angle is [0] and
    the rotation is the identity): the wall test leaves [(-2, 2)] in
    [velocityRef], the rotation of that velocity is [(-2, 2)], and the
    frame ends with [(2, 2)], the rotation of the velocity read before
    the wall test.  The negation is lost. *)
Theorem jitter_overwrites_bounce :
  isPlaying nearRightWall = true /\
  crosses (nextX nearRightWall) (width (dimensions nearRightWall)) = true /\
  snd (afterBounce nearRightWall) = {| dx := -2; dy := 2 |} /\
  rotated ((0.5 - 0.5) * 0.5) (snd (afterBounce nearRightWall))
  = {| dx := -2; dy := 2 |} /\
  velocityRef (animate nearRightWall 0.01 0.5) = {| dx := 2; dy := 2 |} /\
  velocityRef (animate nearRightWall 0.01 0.5)
  <> rotated ((0.5 - 0.5) * 0.5) (snd (afterBounce nearRightWall)).
Proof.
  assert (Hp : isPlaying nearRightWall = true) by reflexivity.
  assert (Hr : 0.01 < 0.02) by lra.
  assert (Hc : crosses (nextX nearRightWall)
                       (width (dimensions nearRightWall)) = true).
  { unfold crosses, nextX. simpl. settle_Rltb. reflexivity. }
  assert (Hc' : crosses (nextY nearRightWall)
                        (height (dimensions nearRightWall)) = false).
  { unfold crosses, nextY. simpl. settle_Rltb. reflexivity. }
  assert (Hb : snd (afterBounce nearRightWall) = {| dx := -2; dy := 2 |}).
  { rewrite afterBounce_velocity, Hc, Hc'.
    apply velocity_eq; simpl; lra. }
  assert (H0 : (0.5 - 0.5) * 0.5 = 0) by lra.
  assert (Hrot : rotated ((0.5 - 0.5) * 0.5) (snd (afterBounce nearRightWall))
                 = {| dx := -2; dy := 2 |}).
  { rewrite Hb, H0. unfold rotated. simpl. rewrite cos_0, sin_0.
    apply velocity_eq; simpl; lra. }
  pose proof nearRightWall_jitter as Hv.
  repeat split; try assumption.
  rewrite Hv, Hrot. intros H. apply (f_equal dx) in H. simpl in H. lra.
Qed.

(** In general: when the jitter fires, the frame ends with the rotation
    of the velocity the frame started with, whatever the wall tests
    wrote. *)
Lemma jitter_ignores_bounce (a : App) (r1 r2 : R) :
  isPlaying a = true -> r1 < 0.02 ->
  velocityRef (animate a r1 r2) = rotated ((r2 - 0.5) * 0.5) (velocityRef a).
Proof.
  intros Hp Hr. apply (animate_jitter a r1 r2 Hp Hr).
Qed.

(** What the lost negation costs: after that frame the prey is beyond
    the right margin and moving out, and frames without jitter never
    bring it back: it goes from [754] to [760] and back, the wall test
    firing every frame. *)
Lemma stranded_entry : strandedRight (animate nearRightWall 0.01 0.5).
Proof.
  assert (Hp : isPlaying nearRightWall = true) by reflexivity.
  destruct (animate_position nearRightWall 0.01 0.5 Hp) as (Hx & _).
  destruct (animate_session nearRightWall 0.01 0.5) as (Hg & Hp' & Hd & _).
  pose proof nearRightWall_jitter as Hv.
  unfold strandedRight. rewrite Hg, Hp', Hd, Hx, Hv.
  unfold nextX. simpl. split; [reflexivity |]. split; [reflexivity |].
  split; [reflexivity |]. left. split; [lra | reflexivity].
Qed.

Lemma stranded_frame (a : App) (r1 r2 : R) :
  0.02 <= r1 -> strandedRight a -> strandedRight (animate a r1 r2).
Proof.
  intros Hr (Hp & Hs & Hw & Hpos).
  destruct (animate_position a r1 r2 Hp) as (Hx & _).
  destruct (animate_session a r1 r2) as (Hg & Hp' & Hd & _).
  destruct (animate_no_jitter a r1 r2 Hp Hr) as (Hv & _).
  unfold strandedRight. rewrite Hg, Hp', Hd, Hx, Hv, afterBounce_velocity.
  repeat split; try assumption.
  unfold nextX. rewrite Hw, Hs. simpl.
  destruct Hpos as [[Hx0 Hdx] | [Hx0 Hdx]]; rewrite Hx0, Hdx.
  - right. rewrite (proj2 (crosses_true _ 800)) by (right; lra).
    split; lra.
  - left. rewrite (proj2 (crosses_true _ 800)) by (right; lra).
    split; lra.
Qed.

Lemma stranded_forever (n : nat) :
  750 < x (prey (run (animate nearRightWall 0.01 0.5)
                     (repeat (Frame 0.5 0.5) n))).
Proof.
  assert (H : strandedRight (run (animate nearRightWall 0.01 0.5)
                                 (repeat (Frame 0.5 0.5) n))).
  { induction n as [| n IH].
    - apply stranded_entry.
    - cbn [repeat]. rewrite repeat_cons, run_snoc. cbn [step].
      apply stranded_frame; [lra | exact IH]. }
  destruct H as (_ & _ & _ & [[-> _] | [-> _]]); lra.
Qed.

(** ** The speed of the prey *)

Lemma animate_norm2 (a : App) (r1 r2 : R) :
  norm2 (velocityRef (animate a r1 r2)) = norm2 (velocityRef a).
Proof.
  destruct (isPlaying a) eqn:Hp.
  - destruct (Rlt_dec r1 0.02) as [Hr | Hr].
    + destruct (animate_jitter a r1 r2 Hp Hr) as [-> _].
      apply norm2_rotated.
    + assert (Hr' : 0.02 <= r1) by lra.
      destruct (animate_no_jitter a r1 r2 Hp Hr') as [-> _].
      rewrite afterBounce_velocity. apply norm2_flipped.
  - unfold animate. rewrite Hp. reflexivity.
Qed.

Lemma step_norm2 (a : App) (e : Event) :
  norm2 (velocityRef (step a e)) = norm2 (velocityRef a).
Proof.
  destruct e; simpl; try reflexivity. apply animate_norm2.
Qed.

Lemma run_norm2 (es : list Event) (a : App) :
  norm2 (velocityRef (run a es)) = norm2 (velocityRef a).
Proof.
  revert a. induction es as [| e es IH]; intros a.
  - reflexivity.
  - change (run a (e :: es)) with (run (step a e) es).
    rewrite IH. apply step_norm2.
Qed.

(** On doubles the wall tests do keep the norm: from [(2, 2)] they only
    reach the four diagonal velocities, whose norm is exactly
    [2 * sqrt 2]. *)
Lemma flipped64_keeps_norm :
  forallb
    (fun v =>
       forallb
         (fun b =>
            isDiagonal64 (flipped64 (fst b) (snd b) v)
            && normIs8 (flipped64 (fst b) (snd b) v))
         [(false, false); (true, false); (false, true); (true, true)])
    diagonals64
  = true.
Proof.
  vm_compute. reflexivity.
Qed.

(** C10, as stated, fails on doubles.  First render, velocity [(2, 2)],
    norm [2 * sqrt 2]; a frame whose draws are [1/64] (the jitter fires)
    and [47/64] (the angle is [15/128]).  With the doubles nearest to the
    cosine and the sine of the angle the jitter stores
    [(1.752443872297756, 2.2201217251416745)], and for every pair of
    doubles within four units in the last place of them the squared norm
    of what it stores is not [8], though within [2 ^ -44] of it. *)
Lemma jitter64_changes_norm :
  normIs8 (2, 2)%float = true /\
  jitter64 (fun _ => cos_15_128) (fun _ => sin_15_128)
           0.015625 0.734375 2 2 (2, 2)%float
  = (0x1.c0a0295f982ebp+0, 0x1.1c2cf2dd4fb12p+1)%float /\
  forallb
    (fun c =>
       forallb
         (fun s =>
            let v := jitter64 (fun _ => c) (fun _ => s)
                              0.015625 0.734375 2 2 (2, 2)%float in
            negb (normIs8 v) && normNear8 v)
         (around 4 sin_15_128))
    (around 4 cos_15_128)
  = true.
Proof.
  repeat split; vm_compute; reflexivity.
Qed.

(** C10, amended: over exact real arithmetic a frame leaves the Euclidean
    norm of the velocity as it was (a wall test negates components, the
    jitter is a rotation), no other handler writes the velocity, and so
    in every state a run of the component reaches the norm is the initial
    [|(2, 2)| = 2 * sqrt 2]. *)
Theorem velocity_norm_invariant :
  (forall (a : App) (r1 r2 : R),
      sqrt (norm2 (velocityRef (animate a r1 r2)))
      = sqrt (norm2 (velocityRef a))) /\
  (forall (innerWidth innerHeight : R) (es : list Event),
      sqrt (norm2 (velocityRef (run (initialApp innerWidth innerHeight) es)))
      = 2 * sqrt 2).
Proof.
  split.
  - intros a r1 r2. rewrite animate_norm2. reflexivity.
  - intros w h es. rewrite run_norm2. apply sqrt_8.
Qed.

(** * Further properties of the motion *)

(** ** Frames without jitter *)

Lemma run_frames_cons (a : App) (r : R * R) (rs : list (R * R)) :
  run a (frames (r :: rs)) = run (animate a (fst r) (snd r)) (frames rs).
Proof. reflexivity. Qed.

Lemma animate_paused (a : App) (r1 r2 : R) :
  isPlaying a = false -> animate a r1 r2 = a.
Proof.
  intros Hp. unfold animate. rewrite Hp. reflexivity.
Qed.


Lemma crosses_ext (c c' limit : R) :
  c = c' -> crosses c limit = crosses c' limit.
Proof. intros ->. reflexivity. Qed.















(** ** Straight lines and reflections *)








(** ** The size of a jitter *)

Lemma cos_lower (t : R) : -2 <= t <= 2 -> 1 - t * t / 2 <= cos t.
Proof.
  intros [H1 H2].
  destruct (pre_cos_bound t 0 H1 H2) as [H _].
  replace (cos_approx t (2 * 0 + 1)) with (1 - t * t / 2) in H; [exact H |].
  unfold cos_approx, cos_term. simpl. field.
Qed.

Lemma dot_rotated (t : R) (v : Velocity) :
  dot v (rotated t v) = norm2 v * cos t.
Proof.
  unfold dot, rotated, norm2. simpl. ring.
Qed.

Lemma norm2_nonneg (v : Velocity) : 0 <= norm2 v.
Proof.
  unfold norm2. nra.
Qed.

(** X5: a jitter is a small turn: the angle is in [[-1/4, 1/4)] radian, the
    scalar product of the old and the new velocity is the squared speed
    times the cosine of the angle, and so at least [31/32] of the squared
    speed: a jitter never turns the prey back. *)
Theorem jitter_turn_bound (a : App) (r1 r2 : R) :
  isPlaying a = true -> r1 < 0.02 -> 0 <= r2 < 1 ->
  - (1 / 4) <= (r2 - 0.5) * 0.5 < 1 / 4 /\
  dot (velocityRef a) (velocityRef (animate a r1 r2))
  = norm2 (velocityRef a) * cos ((r2 - 0.5) * 0.5) /\
  31 / 32 * norm2 (velocityRef a)
  <= dot (velocityRef a) (velocityRef (animate a r1 r2)).
Proof.
  intros Hp Hr H2.
  destruct (animate_jitter a r1 r2 Hp Hr) as [-> _].
  rewrite dot_rotated.
  set (t := (r2 - 0.5) * 0.5).
  assert (Ht : - (1 / 4) <= t < 1 / 4) by (unfold t; lra).
  split; [exact Ht |]. split; [reflexivity |].
  assert (Hc : 1 - t * t / 2 <= cos t) by (apply cos_lower; lra).
  assert (Hq : t * t <= 1 / 16) by nra.
  pose proof (norm2_nonneg (velocityRef a)) as Hn.
  assert (Hc' : 31 / 32 <= cos t) by lra.
  nra.
Qed.

Lemma jitter_turn_bound_witness :
  (isPlaying nearRightWall = true /\ 0.01 < 0.02 /\ 0 <= 0.9 < 1) /\
  31 / 32 * norm2 (velocityRef nearRightWall)
  <= dot (velocityRef nearRightWall)
         (velocityRef (animate nearRightWall 0.01 0.9)).
Proof.
  split; [repeat split; lra |].
  apply (jitter_turn_bound nearRightWall 0.01 0.9); [reflexivity | lra | lra].
Defined.

(** ** The heading *)

Lemma atan2_range (b c : R) : - PI < atan2 b c <= PI.
Proof.
  pose proof PI_RGT_0 as Hpi.
  pose proof (atan_bound (b / c)) as Hb.
  unfold atan2.
  destruct (Rltb 0 c) eqn:H0; [lra |].
  destruct (Rltb c 0) eqn:H1.
  - apply Rltb_true in H1. pose proof (Rinv_lt_0_compat c H1) as Hi.
    destruct (Rltb b 0) eqn:H2.
    + apply Rltb_true in H2.
      assert (Hq : 0 < b / c) by (unfold Rdiv; nra).
      pose proof (atan_increasing 0 (b / c) Hq) as Ha.
      rewrite atan_0 in Ha. lra.
    + apply Rltb_false in H2.
      assert (Hq : b / c <= 0) by (unfold Rdiv; nra).
      assert (Ha : atan (b / c) <= 0).
      { destruct Hq as [Hq | Hq].
        - pose proof (atan_increasing (b / c) 0 Hq) as Ha.
          rewrite atan_0 in Ha. lra.
        - rewrite Hq, atan_0. lra. }
      lra.
  - destruct (Rltb 0 b); [lra |].
    destruct (Rltb b 0); lra.
Qed.

Lemma heading_range (v : Velocity) : -180 < heading v <= 180.
Proof.
  pose proof PI_RGT_0 as Hpi.
  destruct (atan2_range (dy v) (dx v)) as [Hl Hu]. unfold heading.
  assert (Hk : 0 < 180 / PI).
  { apply Rdiv_lt_0_compat; lra. }
  assert (He : PI * (180 / PI) = 180) by (field; lra).
  split.
  - replace (-180) with (- PI * (180 / PI)) by lra. nra.
  - rewrite <- He at 2. nra.
Qed.

Lemma heading_2_2 : heading {| dx := 2; dy := 2 |} = 45.
Proof.
  unfold heading, atan2. simpl. settle_Rltb.
  replace (2 / 2) with 1 by lra. rewrite atan_1.
  pose proof PI_RGT_0 as Hpi. field. lra.
Qed.

Lemma afterBounce_none (a : App) :
  crosses (nextX a) (width (dimensions a)) = false ->
  crosses (nextY a) (height (dimensions a)) = false ->
  afterBounce a = (rotation (prey a), velocityRef a).
Proof.
  intros Hx Hy. unfold afterBounce, bounceX, bounceY.
  fold (nextX a) (nextY a). rewrite Hx, Hy. reflexivity.
Qed.

(** The heading a frame leaves is the old one, or the heading of some
    velocity. *)
Lemma animate_rotation (a : App) (r1 r2 : R) :
  rotation (prey (animate a r1 r2)) = rotation (prey a) \/
  rotation (prey (animate a r1 r2)) = heading (velocityRef (animate a r1 r2)).
Proof.
  destruct (isPlaying a) eqn:Hp.
  2: { left. rewrite (animate_paused a r1 r2 Hp). reflexivity. }
  destruct (Rlt_dec r1 0.02) as [Hr | Hr].
  - right. apply (animate_jitter a r1 r2 Hp Hr).
  - assert (Hr' : 0.02 <= r1) by lra.
    destruct (animate_no_jitter a r1 r2 Hp Hr') as [-> ->].
    destruct (crosses (nextX a) (width (dimensions a))) eqn:Hx.
    + right. apply afterBounce_rotation. left. exact Hx.
    + destruct (crosses (nextY a) (height (dimensions a))) eqn:Hy.
      * right. apply afterBounce_rotation. right. exact Hy.
      * left. rewrite (afterBounce_none a Hx Hy). reflexivity.
Qed.

Lemma aligned_frame (a : App) (r1 r2 : R) :
  aligned a -> aligned (animate a r1 r2).
Proof.
  intros Ha. unfold aligned.
  destruct (isPlaying a) eqn:Hp.
  2: { rewrite (animate_paused a r1 r2 Hp). exact Ha. }
  destruct (Rlt_dec r1 0.02) as [Hr | Hr].
  - apply (animate_jitter a r1 r2 Hp Hr).
  - assert (Hr' : 0.02 <= r1) by lra.
    destruct (animate_no_jitter a r1 r2 Hp Hr') as [-> ->].
    destruct (crosses (nextX a) (width (dimensions a))) eqn:Hx.
    + apply afterBounce_rotation. left. exact Hx.
    + destruct (crosses (nextY a) (height (dimensions a))) eqn:Hy.
      * apply afterBounce_rotation. right. exact Hy.
      * rewrite (afterBounce_none a Hx Hy). exact Ha.
Qed.

Lemma aligned_step (a : App) (e : Event) :
  aligned a -> aligned (step a e).
Proof.
  destruct e; try (intros H; exact H). apply aligned_frame.
Qed.

Lemma aligned_run (es : list Event) (a : App) :
  aligned a -> aligned (run a es).
Proof.
  revert a. induction es as [| e es IH]; intros a Ha.
  - exact Ha.
  - change (run a (e :: es)) with (run (step a e) es).
    apply IH, aligned_step, Ha.
Qed.

(** X6: once the heading shown is the heading of the velocity it stays so,
    whatever happens; a frame with a bounce or a jitter makes it so; and
    the first render does not have it: the prey is drawn at [0] degrees
    while its velocity [(2, 2)] points at [45]. *)
Theorem heading_follows_velocity :
  (forall (a : App) (es : list Event), aligned a -> aligned (run a es)) /\
  (forall (a : App) (r1 r2 : R),
      isPlaying a = true ->
      crosses (nextX a) (width (dimensions a)) = true \/
      crosses (nextY a) (height (dimensions a)) = true \/
      r1 < 0.02 ->
      aligned (animate a r1 r2)) /\
  (forall innerWidth innerHeight : R,
      rotation (prey (initialApp innerWidth innerHeight)) = 0 /\
      heading (velocityRef (initialApp innerWidth innerHeight)) = 45).
Proof.
  split; [intros a es; apply aligned_run |]. split.
  - intros a r1 r2 Hp H. unfold aligned.
    destruct (Rlt_dec r1 0.02) as [Hr | Hr].
    + apply (animate_jitter a r1 r2 Hp Hr).
    + assert (Hr' : 0.02 <= r1) by lra.
      destruct (animate_no_jitter a r1 r2 Hp Hr') as [-> ->].
      apply afterBounce_rotation. destruct H as [H | [H | H]]; tauto.
  - intros w h. split; [reflexivity | apply heading_2_2].
Qed.

Lemma heading_follows_velocity_witness :
  aligned (animate nearRightWall 0.5 0.5) /\
  aligned (run (animate nearRightWall 0.5 0.5)
               [Catch 0.3 0.3; Frame 0.5 0.5; Resize 640 480]).
Proof.
  assert (Ha : aligned (animate nearRightWall 0.5 0.5)).
  { apply (proj1 (proj2 heading_follows_velocity) nearRightWall 0.5 0.5);
      [reflexivity |].
    left. apply crosses_true. right. unfold nextX. simpl. lra. }
  split; [exact Ha |].
  apply (proj1 heading_follows_velocity _ _ Ha).
Defined.

Lemma rotation_step (a : App) (e : Event) :
  -180 < rotation (prey a) <= 180 ->
  -180 < rotation (prey (step a e)) <= 180.
Proof.
  intros H. destruct e; try exact H. cbn [step].
  destruct (animate_rotation a r1 r2) as [-> | ->];
    [exact H | apply heading_range].
Qed.

(** X7: in every state a run of the component reaches, the heading is in
    [(-180, 180]] degrees. *)
Theorem rotation_range (innerWidth innerHeight : R) (es : list Event) :
  -180 < rotation (prey (run (initialApp innerWidth innerHeight) es)) <= 180.
Proof.
  assert (H : forall a, -180 < rotation (prey a) <= 180 ->
                        -180 < rotation (prey (run a es)) <= 180).
  { induction es as [| e es IH]; intros a Ha; [exact Ha |].
    change (run a (e :: es)) with (run (step a e) es).
    apply IH, rotation_step, Ha. }
  apply H. simpl. lra.
Qed.

(** * Further properties of the session *)

(** ** Pause and resume *)

Lemma run_app (a : App) (es1 es2 : list Event) :
  run a (es1 ++ es2) = run (run a es1) es2.
Proof.
  unfold run. apply fold_left_app.
Qed.

Lemma paused_frames (rs : list (R * R)) (a : App) :
  isPlaying a = false -> run a (frames rs) = a.
Proof.
  intros Hp. induction rs as [| r rs IH]; [reflexivity |].
  rewrite run_frames_cons, (animate_paused a _ _ Hp). exact IH.
Qed.

Lemma togglePlaying_twice (a : App) : togglePlaying (togglePlaying a) = a.
Proof.
  destruct a. unfold togglePlaying. simpl. rewrite negb_involutive.
  reflexivity.
Qed.

(** X8: pausing, letting any number of frames pass (whatever their draws) and
    resuming gives back exactly the state before the pause: position,
    heading, velocity and all the rest. *)
Theorem pause_resume (a : App) (rs : list (R * R)) :
  isPlaying a = true ->
  run a (PlayPauseClick :: frames rs ++ [PlayPauseClick]) = a.
Proof.
  intros Hp.
  change (run a (PlayPauseClick :: frames rs ++ [PlayPauseClick]))
    with (run (togglePlaying a) (frames rs ++ [PlayPauseClick])).
  rewrite run_app, paused_frames.
  - apply togglePlaying_twice.
  - simpl. rewrite Hp. reflexivity.
Qed.

Lemma pause_resume_witness :
  isPlaying nearRightWall = true /\
  run nearRightWall
      (PlayPauseClick :: frames [(0.01, 0.9); (0.5, 0.5)] ++ [PlayPauseClick])
  = nearRightWall.
Proof.
  split; [reflexivity |].
  apply (pause_resume nearRightWall [(0.01, 0.9); (0.5, 0.5)]).
  reflexivity.
Defined.

(** ** The flags and the settings over a run *)

Lemma oddly_cons (p : Event -> bool) (e : Event) (es : list Event) :
  oddly p (e :: es) = xorb (p e) (oddly p es).
Proof.
  unfold oddly. simpl. destruct (p e); simpl.
  - rewrite Nat.odd_succ, <- Nat.negb_odd. reflexivity.
  - reflexivity.
Qed.

Lemma step_flags (a : App) (e : Event) :
  isPlaying (step a e) = xorb (isPlaying a) (isPlayPauseClick e) /\
  isMuted (gameState (step a e))
  = xorb (isMuted (gameState a)) (isMuteClick e) /\
  showSettings (step a e) = xorb (showSettings a) (isSettingsClick e).
Proof.
  destruct e; simpl; rewrite ?xorb_false_r, ?xorb_true_r;
    try (repeat split; reflexivity).
  destruct (animate_session a r1 r2) as (-> & -> & _ & ->).
  repeat split; reflexivity.
Qed.

Lemma flags_step_settings (es : list Event) (a : App) :
  showSettings (run a es) = xorb (showSettings a) (oddly isSettingsClick es).
Proof.
  revert a. induction es as [| e es IH]; intros a.
  - simpl. unfold oddly. simpl. rewrite xorb_false_r. reflexivity.
  - change (run a (e :: es)) with (run (step a e) es).
    rewrite IH. destruct (step_flags a e) as (_ & _ & ->).
    rewrite oddly_cons, xorb_assoc. reflexivity.
Qed.

(** X9: each of the three flags is flipped by its own button and by nothing
    else: after any run, the play/pause flag, the mute flag and the
    settings-panel flag are the ones at the start, flipped when the run
    has an odd number of clicks on their button. *)
Theorem flags_count_clicks (es : list Event) (a : App) :
  isPlaying (run a es) = xorb (isPlaying a) (oddly isPlayPauseClick es) /\
  isMuted (gameState (run a es))
  = xorb (isMuted (gameState a)) (oddly isMuteClick es) /\
  showSettings (run a es) = xorb (showSettings a) (oddly isSettingsClick es).
Proof.
  revert a. induction es as [| e es IH]; intros a.
  - simpl. unfold oddly. simpl. rewrite !xorb_false_r. repeat split.
  - change (run a (e :: es)) with (run (step a e) es).
    destruct (IH (step a e)) as (-> & -> & ->).
    destruct (step_flags a e) as (-> & -> & ->).
    rewrite !oddly_cons, !xorb_assoc. repeat split.
Qed.

Lemma step_settings (a : App) (e : Event) :
  (isSpeedChange e = false ->
   speed (gameState (step a e)) = speed (gameState a)) /\
  (isPreyTypeClick e = false ->
   preyType (gameState (step a e)) = preyType (gameState a)) /\
  (isThemeClick e = false ->
   theme (gameState (step a e)) = theme (gameState a)).
Proof.
  destruct e; simpl; repeat split; intros H; try discriminate;
    try reflexivity.
  all: destruct (animate_session a r1 r2) as (-> & _); reflexivity.
Qed.

Lemma run_settings (es : list Event) (a : App) :
  (without isSpeedChange es = true ->
   speed (gameState (run a es)) = speed (gameState a)) /\
  (without isPreyTypeClick es = true ->
   preyType (gameState (run a es)) = preyType (gameState a)) /\
  (without isThemeClick es = true ->
   theme (gameState (run a es)) = theme (gameState a)).
Proof.
  revert a. induction es as [| e es IH]; intros a.
  - repeat split.
  - change (run a (e :: es)) with (run (step a e) es).
    destruct (IH (step a e)) as (Hs & Ht & Hth).
    destruct (step_settings a e) as (Hs1 & Ht1 & Hth1).
    unfold without. cbn [forallb].
    repeat split; intros H; apply andb_true_iff in H; destruct H as [He H];
      apply negb_true_iff in He.
    + rewrite (Hs H). apply Hs1, He.
    + rewrite (Ht H). apply Ht1, He.
    + rewrite (Hth H). apply Hth1, He.
Qed.

(** X10: the speed, the prey type and the theme are the ones of the last
    change: a slider change (a click on a prey type, on a theme) followed
    by any events other than such a change (frames, catches, resets,
    resizes, the other controls) leaves the value it stored. *)
Theorem settings_last_change (a : App) (es es' : list Event) :
  (forall v : R,
      without isSpeedChange es' = true ->
      speed (gameState (run a (es ++ SpeedChange v :: es'))) = v) /\
  (forall t : PreyType,
      without isPreyTypeClick es' = true ->
      preyType (gameState (run a (es ++ PreyTypeClick t :: es'))) = t) /\
  (forall t : Theme,
      without isThemeClick es' = true ->
      theme (gameState (run a (es ++ ThemeClick t :: es'))) = t).
Proof.
  repeat split; intros v H; rewrite run_app.
  - change (run (run a es) (SpeedChange v :: es'))
      with (run (setSpeed (run a es) v) es').
    rewrite (proj1 (run_settings es' _) H). reflexivity.
  - change (run (run a es) (PreyTypeClick v :: es'))
      with (run (setPreyType (run a es) v) es').
    rewrite (proj1 (proj2 (run_settings es' _)) H). reflexivity.
  - change (run (run a es) (ThemeClick v :: es'))
      with (run (setTheme (run a es) v) es').
    rewrite (proj2 (proj2 (run_settings es' _)) H). reflexivity.
Qed.

Lemma settings_last_change_witness :
  without isSpeedChange [Frame 0.5 0.5; Catch 0.1 0.2; ResetScore] = true /\
  speed (gameState
           (run (initialApp 800 600)
                ([SpeedChange 7; MuteClick]
                 ++ SpeedChange 4.5 :: [Frame 0.5 0.5; Catch 0.1 0.2;
                                        ResetScore])))
  = 4.5.
Proof.
  split; [reflexivity |].
  apply (proj1 (settings_last_change (initialApp 800 600)
                  [SpeedChange 7; MuteClick]
                  [Frame 0.5 0.5; Catch 0.1 0.2; ResetScore]) 4.5).
  reflexivity.
Defined.

(** ** The score over a run *)

Lemma countCatches_cons (e : Event) (es : list Event) :
  countCatches (e :: es) = (countCatches [e] + countCatches es)%nat.
Proof.
  destruct e; reflexivity.
Qed.

Lemma afterLastReset_none (es : list Event) :
  existsb isReset es = false -> afterLastReset es = es.
Proof.
  destruct es as [| e es]; [reflexivity |].
  cbn [existsb afterLastReset]. intros H.
  apply orb_false_iff in H. destruct H as [-> ->]. reflexivity.
Qed.

Lemma run_score_reset (es : list Event) (a : App) :
  score (gameState (run a es))
  = if existsb isReset es
    then Z.of_nat (countCatches (afterLastReset es))
    else (score (gameState a) + Z.of_nat (countCatches es))%Z.
Proof.
  revert a. induction es as [| e es IH]; intros a.
  - simpl. lia.
  - change (run a (e :: es)) with (run (step a e) es).
    rewrite IH. cbn [existsb afterLastReset].
    destruct (existsb isReset es) eqn:Hes.
    + rewrite orb_true_r. reflexivity.
    + rewrite orb_false_r. destruct (isReset e) eqn:He.
      * destruct e; try discriminate. simpl. reflexivity.
      * rewrite (step_score a e He), (countCatches_cons e es). lia.
Qed.

(** X11: from the first render, after any run, the score is the number of
    catches since the last reset (of all catches when there was none),
    pauses, frames and settings in between notwithstanding; so it is never
    negative. *)
Theorem score_since_reset (innerWidth innerHeight : R) (es : list Event) :
  score (gameState (run (initialApp innerWidth innerHeight) es))
  = Z.of_nat (countCatches (afterLastReset es)) /\
  (0 <= score (gameState (run (initialApp innerWidth innerHeight) es)))%Z.
Proof.
  assert (H : score (gameState (run (initialApp innerWidth innerHeight) es))
              = Z.of_nat (countCatches (afterLastReset es))).
  { rewrite run_score_reset. destruct (existsb isReset es) eqn:Hes.
    - reflexivity.
    - rewrite (afterLastReset_none es Hes). simpl. lia. }
  split; [exact H | rewrite H; lia].
Qed.

(** X12: the instructions are on screen exactly when no catch was made since
    the last reset (or since the start) and the settings panel was opened
    and closed an even number of times. *)
Theorem instructions_until_first_catch
        (innerWidth innerHeight : R) (es : list Event) :
  instructionsShown (run (initialApp innerWidth innerHeight) es)
  = (countCatches (afterLastReset es) =? 0)%nat
    && negb (oddly isSettingsClick es).
Proof.
  unfold instructionsShown.
  assert (Hs : score (gameState (run (initialApp innerWidth innerHeight) es))
               = Z.of_nat (countCatches (afterLastReset es))).
  { rewrite run_score_reset. destruct (existsb isReset es) eqn:Hes.
    - reflexivity.
    - rewrite (afterLastReset_none es Hes). simpl. lia. }
  rewrite Hs.
  rewrite (flags_step_settings es (initialApp innerWidth innerHeight)).
  cbn [showSettings initialApp xorb].
  f_equal. destruct (countCatches (afterLastReset es)); reflexivity.
Qed.

(** ** The scale pulse *)

Lemma step_scale (a : App) (e : Event) :
  writesScale e = false -> scale (prey (step a e)) = scale (prey a).
Proof.
  destruct e; simpl; intros H; try discriminate; try reflexivity.
  unfold animate. destruct (isPlaying a); simpl; [| reflexivity].
  destruct (jitter _ _ _ _ _) as [rot vref]. reflexivity.
Qed.

Lemma run_scale (es : list Event) (a : App) :
  without writesScale es = true ->
  scale (prey (run a es)) = scale (prey a).
Proof.
  revert a. induction es as [| e es IH]; intros a H; [reflexivity |].
  change (run a (e :: es)) with (run (step a e) es).
  unfold without in H. cbn [forallb] in H.
  apply andb_true_iff in H. destruct H as [He H].
  apply negb_true_iff in He.
  rewrite (IH _ H). apply step_scale, He.
Qed.

Lemma scale_step (a : App) (e : Event) :
  scale (prey a) = 1 \/ scale (prey a) = 1.5 ->
  scale (prey (step a e)) = 1 \/ scale (prey (step a e)) = 1.5.
Proof.
  intros H. destruct (writesScale e) eqn:He.
  - destruct e; try discriminate; simpl; [right | left]; reflexivity.
  - rewrite (step_scale a e He). exact H.
Qed.

(** X13: the scale of the prey is [1.5] from a catch until the next timeout
    callback or catch, frames and everything else in between leaving it
    alone; it is [1] from a timeout callback until the next catch (so the
    callback of an earlier catch ends the pulse of a later one); and in
    every state a run of the component reaches it is [1] or [1.5]. *)
Theorem scale_pulse :
  (forall (a : App) (rx ry : R) (es : list Event),
      without writesScale es = true ->
      scale (prey (run (handlePreyCatch a rx ry) es)) = 1.5) /\
  (forall (a : App) (es : list Event),
      without writesScale es = true ->
      scale (prey (run (restoreScale a) es)) = 1) /\
  (forall (innerWidth innerHeight : R) (es : list Event),
      scale (prey (run (initialApp innerWidth innerHeight) es)) = 1 \/
      scale (prey (run (initialApp innerWidth innerHeight) es)) = 1.5).
Proof.
  split; [| split].
  - intros a rx ry es H. rewrite (run_scale es _ H). reflexivity.
  - intros a es H. rewrite (run_scale es _ H). reflexivity.
  - intros w h es.
    assert (H : forall a, scale (prey a) = 1 \/ scale (prey a) = 1.5 ->
                scale (prey (run a es)) = 1 \/ scale (prey (run a es)) = 1.5).
    { induction es as [| e es IH]; intros a Ha; [exact Ha |].
      change (run a (e :: es)) with (run (step a e) es).
      apply IH, scale_step, Ha. }
    apply H. left. reflexivity.
Qed.

Lemma scale_pulse_witness :
  without writesScale [Frame 0.5 0.5; Frame 0.01 0.2; MuteClick] = true /\
  scale (prey (run (handlePreyCatch (initialApp 800 600) 0.3 0.6)
                   [Frame 0.5 0.5; Frame 0.01 0.2; MuteClick])) = 1.5 /\
  scale (prey (run (restoreScale
                      (handlePreyCatch
                         (handlePreyCatch (initialApp 800 600) 0.3 0.6)
                         0.7 0.1))
                   [Frame 0.5 0.5; Frame 0.01 0.2; MuteClick])) = 1.
Proof.
  split; [reflexivity |]. split.
  - apply (proj1 scale_pulse). reflexivity.
  - apply (proj1 (proj2 scale_pulse)). reflexivity.
Defined.

(** ** The first render and the teleport *)

(** X14: the first render puts the prey at the centre of the window, which is
    in the field exactly when the window is at least [100] by [100]. *)
Theorem initial_in_field (innerWidth innerHeight : R) :
  x (prey (initialApp innerWidth innerHeight)) * 2 = innerWidth /\
  y (prey (initialApp innerWidth innerHeight)) * 2 = innerHeight /\
  (inField (dimensions (initialApp innerWidth innerHeight))
           (prey (initialApp innerWidth innerHeight))
   <-> 100 <= innerWidth /\ 100 <= innerHeight).
Proof.
  unfold inField. simpl. repeat split; try lra.
  all: intros H; lra.
Qed.

(** ** The sound *)

Lemma step_muted (a : App) (e : Event) :
  isMuteClick e = false ->
  isMuted (gameState (step a e)) = isMuted (gameState a).
Proof.
  intros H. destruct (step_flags a e) as (_ & -> & _).
  rewrite H. apply xorb_false_r.
Qed.

(** X16: as long as the mute button is not clicked, a muted component never
    plays the clip, however many catches are made, and an unmuted one
    plays it once per catch. *)
Theorem sound_per_catch (es : list Event) (a : App) :
  without isMuteClick es = true ->
  soundsPlayed a es
  = if isMuted (gameState a) then O else countCatches es.
Proof.
  revert a. induction es as [| e es IH]; intros a H.
  - simpl. destruct (isMuted (gameState a)); reflexivity.
  - unfold without in H. cbn [forallb] in H.
    apply andb_true_iff in H. destruct H as [He H].
    apply negb_true_iff in He.
    cbn [soundsPlayed]. rewrite (IH _ H), (step_muted a e He).
    unfold catchPlaysSound.
    destruct (isMuted (gameState a)); destruct e; reflexivity.
Qed.

Lemma sound_per_catch_witness :
  without isMuteClick [Catch 0.1 0.2; Frame 0.5 0.5; Catch 0.3 0.4] = true /\
  soundsPlayed (toggleMuted (initialApp 800 600))
               [Catch 0.1 0.2; Frame 0.5 0.5; Catch 0.3 0.4] = O /\
  soundsPlayed (initialApp 800 600)
               [Catch 0.1 0.2; Frame 0.5 0.5; Catch 0.3 0.4] = 2%nat.
Proof.
  split; [reflexivity |]. split.
  - apply (sound_per_catch [Catch 0.1 0.2; Frame 0.5 0.5; Catch 0.3 0.4]
             (toggleMuted (initialApp 800 600))).
    reflexivity.
  - apply (sound_per_catch [Catch 0.1 0.2; Frame 0.5 0.5; Catch 0.3 0.4]
             (initialApp 800 600)).
    reflexivity.
Defined.

(** ** Resizing *)


